(** * Zumo sumo robot: the finite state machine sketch

    A shallow embedding of the state-machine sketch (the one with the
    [TurnLeft]/[TurnRight] states and three sonars).  The sketch is one
    translation unit of global variables and [void] functions; it is embedded
    as a state-and-output monad over a record of those globals, the output
    being the sequence of outward calls and event assignments the code
    performs, in program order.  Serial printing and [pinMode] are left out;
    [otteTal], which nothing calls, is not embedded. *)

From Stdlib Require Import ZArith List Bool Lia.
Import ListNotations.
Local Open Scope Z_scope.

(** ** Machine integers of the AVR target

    [int] is 16 bits, [unsigned long] 32 bits, [unsigned long long] 64 bits.
    A conversion to a narrower or unsigned type reduces modulo the width. *)

Definition wrap_unsigned (bits : Z) (z : Z) : Z := z mod 2 ^ bits.

Definition wrap_signed (bits : Z) (z : Z) : Z :=
  (z + 2 ^ (bits - 1)) mod 2 ^ bits - 2 ^ (bits - 1).

Definition to_int : Z -> Z := wrap_signed 16.
Definition to_unsigned_int : Z -> Z := wrap_unsigned 16.
Definition to_unsigned_long : Z -> Z := wrap_unsigned 32.
Definition to_unsigned_long_long : Z -> Z := wrap_unsigned 64.

(** ** The sketch's [#define]s *)

Definition MAX_DISTANCE : Z := 100.
Definition SONAR_THRESHOLD : Z := 30.
Definition NUM_SENSORS : nat := 4.
Definition TIMEOUT : Z := 500.
Definition QTRTHRESHOLD : Z := 300.
Definition REVERSE_SPEED : Z := 400.
Definition TURN_SPEED : Z := 300.
Definition FORWARD_SPEED : Z := 400.
Definition SEARCH_SPEED : Z := 200.
Definition REVERSE_DURATION : Z := 200.
Definition TURN_DURATION : Z := 300.

(** ** States and events *)

Inductive States : Set :=
  Start | Idle | Search | Chase | BackUp | TurnLeft | TurnRight.

Inductive Events : Set :=
  None | OnButtonPress | On5SecondsPassed | OnFind | OnEdge | OnSafe
| OnLost | OnLeft | OnRight.

Definition States_eqb (a b : States) : bool :=
  match a, b with
  | Start, Start | Idle, Idle | Search, Search | Chase, Chase
  | BackUp, BackUp | TurnLeft, TurnLeft | TurnRight, TurnRight => true
  | _, _ => false
  end.

Definition Events_eqb (a b : Events) : bool :=
  match a, b with
  | None, None | OnButtonPress, OnButtonPress
  | On5SecondsPassed, On5SecondsPassed | OnFind, OnFind | OnEdge, OnEdge
  | OnSafe, OnSafe | OnLost, OnLost | OnLeft, OnLeft
  | OnRight, OnRight => true
  | _, _ => false
  end.

(** ** The global variables *)

Record Zumo : Set := mkZumo {
  zumoState : States;
  zumoEvent : Events;
  pingRead : Z;
  pingReadLeft : Z;
  pingReadRight : Z;
  sensorValues : list Z;
  startIdleTimer : bool;
  stopIdleTimer : bool;
  idleTimer : Z;
  otteTalsTimer : Z
}.

Definition set_zumoState (v : States) (z : Zumo) : Zumo :=
  mkZumo v (zumoEvent z) (pingRead z) (pingReadLeft z) (pingReadRight z)
         (sensorValues z) (startIdleTimer z) (stopIdleTimer z) (idleTimer z)
         (otteTalsTimer z).

Definition set_zumoEvent (v : Events) (z : Zumo) : Zumo :=
  mkZumo (zumoState z) v (pingRead z) (pingReadLeft z) (pingReadRight z)
         (sensorValues z) (startIdleTimer z) (stopIdleTimer z) (idleTimer z)
         (otteTalsTimer z).

Definition set_pingRead (v : Z) (z : Zumo) : Zumo :=
  mkZumo (zumoState z) (zumoEvent z) v (pingReadLeft z) (pingReadRight z)
         (sensorValues z) (startIdleTimer z) (stopIdleTimer z) (idleTimer z)
         (otteTalsTimer z).

Definition set_pingReadLeft (v : Z) (z : Zumo) : Zumo :=
  mkZumo (zumoState z) (zumoEvent z) (pingRead z) v (pingReadRight z)
         (sensorValues z) (startIdleTimer z) (stopIdleTimer z) (idleTimer z)
         (otteTalsTimer z).

Definition set_pingReadRight (v : Z) (z : Zumo) : Zumo :=
  mkZumo (zumoState z) (zumoEvent z) (pingRead z) (pingReadLeft z) v
         (sensorValues z) (startIdleTimer z) (stopIdleTimer z) (idleTimer z)
         (otteTalsTimer z).

Definition set_sensorValues (v : list Z) (z : Zumo) : Zumo :=
  mkZumo (zumoState z) (zumoEvent z) (pingRead z) (pingReadLeft z)
         (pingReadRight z) v (startIdleTimer z) (stopIdleTimer z)
         (idleTimer z) (otteTalsTimer z).

Definition set_startIdleTimer (v : bool) (z : Zumo) : Zumo :=
  mkZumo (zumoState z) (zumoEvent z) (pingRead z) (pingReadLeft z)
         (pingReadRight z) (sensorValues z) v (stopIdleTimer z) (idleTimer z)
         (otteTalsTimer z).

Definition set_stopIdleTimer (v : bool) (z : Zumo) : Zumo :=
  mkZumo (zumoState z) (zumoEvent z) (pingRead z) (pingReadLeft z)
         (pingReadRight z) (sensorValues z) (startIdleTimer z) v (idleTimer z)
         (otteTalsTimer z).

Definition set_idleTimer (v : Z) (z : Zumo) : Zumo :=
  mkZumo (zumoState z) (zumoEvent z) (pingRead z) (pingReadLeft z)
         (pingReadRight z) (sensorValues z) (startIdleTimer z)
         (stopIdleTimer z) v (otteTalsTimer z).

Definition set_otteTalsTimer (v : Z) (z : Zumo) : Zumo :=
  mkZumo (zumoState z) (zumoEvent z) (pingRead z) (pingReadLeft z)
         (pingReadRight z) (sensorValues z) (startIdleTimer z)
         (stopIdleTimer z) (idleTimer z) v.

(** The globals as the static initialisers leave them, before [setup]:
    [zumoState = Start], [zumoEvent = None], the two flags [false], and
    everything without an initialiser zero. *)
Definition power_on : Zumo :=
  mkZumo Start None 0 0 0 (repeat 0 NUM_SENSORS) false false 0 0.

(** ** What the environment answers

    One record per call of a state function: the values the drivers and the
    clock return to the calls made in it.  Each driver is called at most once
    per state function; [millis()] is called at two places ([idle] and
    [updateIdle]), each with its own reading. *)
Record Snapshot : Set := mkSnapshot {
  getSingleDebouncedPress : bool;   (* button.getSingleDebouncedPress() *)
  ping_median : Z;                  (* sonar.ping_median(3) *)
  ping_median_left : Z;             (* sonarLeft.ping_median(3) *)
  ping_median_right : Z;            (* sonarRight.ping_median(3) *)
  qtrrc_values : nat -> Z;          (* what qtrrc.read stores, per channel *)
  millis_idle : Z;                  (* millis() in idle() *)
  millis_updateIdle : Z             (* millis() in updateIdle() *)
}.

(** ** What the sketch does to the outside, and to the event variable *)
Inductive Step : Set :=
| SetSpeeds (left right : Z)   (* motors.setSpeeds(left, right) *)
| Delay (ms : Z)               (* delay(ms) *)
| ButtonPoll                   (* button.getSingleDebouncedPress() *)
| Ping                         (* sonar.ping_median(3) *)
| PingLeft                     (* sonarLeft.ping_median(3) *)
| PingRight                    (* sonarRight.ping_median(3) *)
| QTRRead                      (* qtrrc.read(sensorValues) *)
| Emit (e : Events).           (* zumoEvent = e *)

(** ** The monad: global state threaded, steps appended *)

Definition M (A : Type) : Type := Zumo -> A * Zumo * list Step.

Definition ret {A : Type} (a : A) : M A := fun z => (a, z, []).

Definition bind {A B : Type} (m : M A) (f : A -> M B) : M B :=
  fun z =>
    let '(a, z1, t1) := m z in
    let '(b, z2, t2) := f a z1 in
    (b, z2, t1 ++ t2).

Definition get : M Zumo := fun z => (z, z, []).
Definition modify (f : Zumo -> Zumo) : M unit := fun z => (tt, f z, []).
Definition tell (s : Step) : M unit := fun z => (tt, z, [s]).

Declare Scope zumo_scope.
Delimit Scope zumo_scope with zumo.
Notation "x <- m ;; k" := (bind m (fun x => k))
  (at level 61, m at next level, right associativity) : zumo_scope.
Notation "m ;; k" := (bind m (fun _ => k))
  (at level 61, right associativity) : zumo_scope.
Local Open Scope zumo_scope.

Definition value {A : Type} (m : M A) (z : Zumo) : A := fst (fst (m z)).
Definition exec {A : Type} (m : M A) (z : Zumo) : Zumo := snd (fst (m z)).
Definition steps {A : Type} (m : M A) (z : Zumo) : list Step := snd (m z).

(** ** The sketch *)

Section Sketch.

(** [US_ROUNDTRIP_CM] is a macro of the NewPing library (microseconds of
    round trip per centimetre); the sketch only divides by it. *)
Variable US_ROUNDTRIP_CM : Z.

(** *** Driver calls *)

Definition motors_setSpeeds (left right : Z) : M unit :=
  tell (SetSpeeds left right).

Definition delay (ms : Z) : M unit := tell (Delay ms).

Definition button_getSingleDebouncedPress (env : Snapshot) : M bool :=
  tell ButtonPoll ;; ret (getSingleDebouncedPress env).

Definition sonar_ping_median (env : Snapshot) : M Z :=
  tell Ping ;; ret (ping_median env).

Definition sonarLeft_ping_median (env : Snapshot) : M Z :=
  tell PingLeft ;; ret (ping_median_left env).

Definition sonarRight_ping_median (env : Snapshot) : M Z :=
  tell PingRight ;; ret (ping_median_right env).

(** [qtrrc.read(sensorValues)] overwrites the [NUM_SENSORS] cells of the
    [unsigned int] array. *)
Definition qtrrc_read (env : Snapshot) : M unit :=
  tell QTRRead ;;
  modify (set_sensorValues
            (map (fun i => to_unsigned_int (qtrrc_values env i))
                 (seq 0 NUM_SENSORS))).

(** [millis()] returns an [unsigned long]. *)
Definition millis (reading : Z) : M Z := ret (to_unsigned_long reading).

(** [zumoEvent = e;] *)
Definition assign_zumoEvent (e : Events) : M unit :=
  tell (Emit e) ;; modify (set_zumoEvent e).

(** *** Sensor wrappers *)

Definition buttonUpdate (env : Snapshot) : M bool :=
  btnPress <- button_getSingleDebouncedPress env ;;
  ret btnPress.

Definition sonarUpdate (env : Snapshot) : M Z :=
  echo <- sonar_ping_median env ;;
  modify (set_pingRead (to_int (Z.quot echo US_ROUNDTRIP_CM))) ;;
  z <- get ;;
  ret (pingRead z).

Definition sonarUpdateLeft (env : Snapshot) : M Z :=
  echo <- sonarLeft_ping_median env ;;
  modify (set_pingReadLeft (to_int (Z.quot echo US_ROUNDTRIP_CM))) ;;
  z <- get ;;
  ret (pingReadLeft z).

Definition sonarUpdateRight (env : Snapshot) : M Z :=
  echo <- sonarRight_ping_median env ;;
  modify (set_pingReadRight (to_int (Z.quot echo US_ROUNDTRIP_CM))) ;;
  z <- get ;;
  ret (pingReadRight z).

(** The [for] loop of [QTRUpdate]: [fuel] iterations are left, [i] is the
    loop variable; falling out of the loop returns [-1]. *)
Fixpoint QTRUpdate_for (fuel : nat) (i : nat) (vals : list Z) : Z :=
  match fuel with
  | O => -1
  | S fuel' =>
      if nth i vals 0 <? QTRTHRESHOLD then Z.of_nat i
      else QTRUpdate_for fuel' (S i) vals
  end.

Definition QTRUpdate (env : Snapshot) : M Z :=
  qtrrc_read env ;;
  z <- get ;;
  ret (QTRUpdate_for NUM_SENSORS 0 (sensorValues z)).

(** *** The state machine *)

(** [if(zumoState == s){ zumoState = s'; }] *)
Definition if_state (s s' : States) : M unit :=
  z <- get ;;
  if States_eqb (zumoState z) s then modify (set_zumoState s') else ret tt.

Definition updateState : M unit :=
  z <- get ;;
  match zumoEvent z with
  | None => ret tt
  | OnButtonPress => if_state Start Idle
  | On5SecondsPassed => if_state Idle Search
  | OnFind =>
      if_state Search Chase ;;
      if_state TurnLeft Chase ;;
      if_state TurnRight Chase
  | OnEdge =>
      if_state Search BackUp ;;
      if_state Chase BackUp ;;
      if_state TurnLeft BackUp ;;
      if_state TurnRight BackUp
  | OnSafe => if_state BackUp Search
  | OnLost => if_state Chase Search
  | OnLeft => if_state Search TurnLeft
  | OnRight => if_state Search TurnRight
  end.

Definition updateEvent : M unit := ret tt.

(** *** Timers *)

(** [&&] short-circuits: [millis()] is read only when [startIdleTimer]
    holds.  [idleTimer + 5000] is computed in [unsigned long long]. *)
Definition updateIdle (env : Snapshot) : M bool :=
  z <- get ;;
  if startIdleTimer z then
    now <- millis (millis_updateIdle env) ;;
    if (now >=? to_unsigned_long_long (idleTimer z + 5000))
       && negb (stopIdleTimer z)
    then modify (set_stopIdleTimer true) ;; ret true
    else ret false
  else ret false.

Definition initialize (millis1 millis2 : Z) : M unit :=
  modify (set_zumoState Start) ;;
  assign_zumoEvent None ;;
  now1 <- millis millis1 ;;
  modify (set_idleTimer (to_unsigned_long_long now1)) ;;
  now2 <- millis millis2 ;;
  modify (set_otteTalsTimer (to_unsigned_long_long now2)).

(** *** The state functions *)

Definition start (env : Snapshot) : M unit :=
  pressed <- buttonUpdate env ;;
  if pressed then assign_zumoEvent OnButtonPress else ret tt.

Definition idle (env : Snapshot) : M unit :=
  z <- get ;;
  (if negb (stopIdleTimer z) && negb (startIdleTimer z) then
     now <- millis (millis_idle env) ;;
     modify (set_idleTimer (to_unsigned_long_long now)) ;;
     modify (set_startIdleTimer true)
   else ret tt) ;;
  fired <- updateIdle env ;;
  if fired then assign_zumoEvent On5SecondsPassed else ret tt.

Definition search (env : Snapshot) : M unit :=
  edge <- QTRUpdate env ;;
  if edge >? -1 then
    assign_zumoEvent OnEdge
  else
    motors_setSpeeds (Z.quot SEARCH_SPEED 2) SEARCH_SPEED ;;
    sonarRead <- sonarUpdate env ;;
    sonarReadLeft <- sonarUpdateLeft env ;;
    sonarReadRight <- sonarUpdateRight env ;;
    if (sonarRead <? SONAR_THRESHOLD) && (sonarRead >? 0) then
      motors_setSpeeds 0 0 ;;
      delay 50 ;;
      assign_zumoEvent OnFind
    else if (sonarReadLeft <? SONAR_THRESHOLD) && (sonarReadLeft >? 0) then
      assign_zumoEvent OnLeft
    else if (sonarReadRight <? SONAR_THRESHOLD) && (sonarReadRight >? 0) then
      assign_zumoEvent OnRight
    else ret tt.

Definition chase (env : Snapshot) : M unit :=
  motors_setSpeeds FORWARD_SPEED FORWARD_SPEED ;;
  edge <- QTRUpdate env ;;
  if edge >? -1 then assign_zumoEvent OnEdge else ret tt.

(** The bodies of the three comparison branches of [backUp]. *)
Definition backUp_less : M unit :=
  motors_setSpeeds (- REVERSE_SPEED) (Z.quot (- REVERSE_SPEED) 2) ;;
  delay REVERSE_DURATION ;;
  motors_setSpeeds (- TURN_SPEED) TURN_SPEED ;;
  delay TURN_DURATION.

Definition backUp_greater : M unit :=
  motors_setSpeeds (Z.quot (- REVERSE_SPEED) 2) (- REVERSE_SPEED) ;;
  delay REVERSE_DURATION ;;
  motors_setSpeeds TURN_SPEED (- TURN_SPEED) ;;
  delay TURN_DURATION.

Definition backUp_else : M unit :=
  motors_setSpeeds (- REVERSE_SPEED) (- REVERSE_SPEED) ;;
  delay REVERSE_DURATION ;;
  motors_setSpeeds (- TURN_SPEED) TURN_SPEED ;;
  delay TURN_DURATION.

(** An [if] without [else], then an [if]/[else], then the assignment. *)
Definition backUp : M unit :=
  z <- get ;;
  let first := nth 0 (sensorValues z) 0 in
  let last := nth (NUM_SENSORS - 1) (sensorValues z) 0 in
  (if first <? last then backUp_less else ret tt) ;;
  (if first >? last then backUp_greater else backUp_else) ;;
  assign_zumoEvent OnSafe.

Definition turnLeft (env : Snapshot) : M unit :=
  motors_setSpeeds (- TURN_SPEED) TURN_SPEED ;;
  edge <- QTRUpdate env ;;
  if edge >? -1 then
    assign_zumoEvent OnEdge
  else
    sonarRead <- sonarUpdate env ;;
    if (sonarRead <? SONAR_THRESHOLD) && (sonarRead >? 0) then
      motors_setSpeeds 0 0 ;;
      delay 50 ;;
      assign_zumoEvent OnFind
    else ret tt.

Definition turnRight (env : Snapshot) : M unit :=
  motors_setSpeeds TURN_SPEED (- TURN_SPEED) ;;
  edge <- QTRUpdate env ;;
  if edge >? -1 then
    assign_zumoEvent OnEdge
  else
    sonarRead <- sonarUpdate env ;;
    if (sonarRead <? SONAR_THRESHOLD) && (sonarRead >? 0) then
      motors_setSpeeds 0 0 ;;
      delay 50 ;;
      assign_zumoEvent OnFind
    else ret tt.

(** *** Dispatch, [setup] and [loop] *)

Definition doState (env : Snapshot) : M unit :=
  z <- get ;;
  match zumoState z with
  | Start => start env
  | Idle => idle env
  | Search => search env
  | Chase => chase env
  | BackUp => backUp
  | TurnLeft => turnLeft env
  | TurnRight => turnRight env
  end.

Definition setup (millis1 millis2 : Z) : M unit := initialize millis1 millis2.

Definition loop (env : Snapshot) : M unit :=
  updateEvent ;;
  updateState ;;
  doState env.

(** [loop] called once per snapshot, in order. *)
Fixpoint loops (envs : list Snapshot) : M unit :=
  match envs with
  | [] => ret tt
  | env :: rest => loop env ;; loops rest
  end.

(** The sketch from power-on: [setup], then [loop] over and over. *)
Definition sketch (millis1 millis2 : Z) (envs : list Snapshot) : M unit :=
  setup millis1 millis2 ;; loops envs.

(** *** [otteTal]

    The figure-of-eight sweep; no state function calls it.  Its two
    [millis()] calls get their readings as arguments.  [millisRead] is an
    [unsigned long long], as are the window bounds. *)
Definition otteTal (env : Snapshot) (millis1 millis2 : Z) : M Z :=
  edge <- QTRUpdate env ;;
  if edge >? -1 then ret (-1)
  else
    now1 <- millis millis1 ;;
    let millisRead := to_unsigned_long_long now1 in
    z <- get ;;
    let timer := otteTalsTimer z in
    (if (millisRead >? timer)
        && (millisRead <? to_unsigned_long_long (timer + 1000)) then
       motors_setSpeeds 400 125
     else if (millisRead >? to_unsigned_long_long (timer + 1000))
             && (millisRead <? to_unsigned_long_long (timer + 4000)) then
       motors_setSpeeds 125 400
     else if (millisRead >? to_unsigned_long_long (timer + 4000))
             && (millisRead <? to_unsigned_long_long (timer + 6000)) then
       motors_setSpeeds 400 125
     else
       now2 <- millis millis2 ;;
       modify (set_otteTalsTimer (to_unsigned_long_long now2))) ;;
    ret 0.

(** ** Vocabulary for the statements *)

(** The events assigned to [zumoEvent] in a sequence of steps, in order. *)
Fixpoint emitted (t : list Step) : list Events :=
  match t with
  | [] => []
  | Emit e :: rest => e :: emitted rest
  | _ :: rest => emitted rest
  end.

(** The value [zumoEvent] holds after the steps [t], having held [e0]
    before them. *)
Definition last_emitted (t : list Step) (e0 : Events) : Events :=
  last (emitted t) e0.

(** How many times the steps [t] assign the event [e]. *)
Definition times_emitted (e : Events) (t : list Step) : nat :=
  length (filter (Events_eqb e) (emitted t)).

(** What [QTRUpdate] returns on a snapshot: the first channel below
    [QTRTHRESHOLD], or [-1]. *)
Definition edgeIndex (env : Snapshot) : Z :=
  QTRUpdate_for NUM_SENSORS 0
    (map (fun i => to_unsigned_int (qtrrc_values env i)) (seq 0 NUM_SENSORS)).

(** The test the state functions apply to a range:
    [range < SONAR_THRESHOLD && range > 0]. *)
Definition target_seen (range : Z) : bool :=
  (range <? SONAR_THRESHOLD) && (range >? 0).

(** What the three [sonarUpdate] functions return on a snapshot. *)
Definition frontRange (env : Snapshot) : Z :=
  to_int (Z.quot (ping_median env) US_ROUNDTRIP_CM).
Definition leftRange (env : Snapshot) : Z :=
  to_int (Z.quot (ping_median_left env) US_ROUNDTRIP_CM).
Definition rightRange (env : Snapshot) : Z :=
  to_int (Z.quot (ping_median_right env) US_ROUNDTRIP_CM).

(** The transition table of the specification, row by row. *)
Definition transition_table : list (States * Events * States) :=
  [ (Start,     OnButtonPress,    Idle);
    (Idle,      On5SecondsPassed, Search);
    (Search,    OnFind,           Chase);
    (Search,    OnLeft,           TurnLeft);
    (Search,    OnRight,          TurnRight);
    (Search,    OnEdge,           BackUp);
    (Chase,     OnEdge,           BackUp);
    (Chase,     OnLost,           Search);
    (TurnLeft,  OnFind,           Chase);
    (TurnLeft,  OnEdge,           BackUp);
    (TurnRight, OnFind,           Chase);
    (TurnRight, OnEdge,           BackUp);
    (BackUp,    OnSafe,           Search) ].

(** The state the table gives for [(s, e)]: the listed one, else [s]. *)
Definition table_next (s : States) (e : Events) : States :=
  match
    find (fun row => States_eqb (fst (fst row)) s && Events_eqb (snd (fst row)) e)
         transition_table
  with
  | Some row => snd row
  | Datatypes.None => s
  end.

(** The state of the sketch after [setup] and the given cycles. *)
Definition after (millis1 millis2 : Z) (envs : list Snapshot) : Zumo :=
  exec (sketch millis1 millis2 envs) power_on.

(** The reading [idle] stores in [idleTimer]: the [millis()] of the first
    cycle, counted from state [z], whose state function is [idle]. *)
Fixpoint first_idle_millis (envs : list Snapshot) (z : Zumo) : option Z :=
  match envs with
  | [] => Datatypes.None
  | env :: rest =>
      match zumoState (exec (updateEvent ;; updateState) z) with
      | Idle => Some (to_unsigned_long (millis_idle env))
      | _ => first_idle_millis rest (exec (loop env) z)
      end
  end.

(** The states whose function drives the motors and watches the border. *)
Definition moving (s : States) : bool :=
  match s with
  | Search | Chase | TurnLeft | TurnRight => true
  | _ => false
  end.

(** A step with the two wheels exchanged. *)
Definition mirror (s : Step) : Step :=
  match s with
  | SetSpeeds l r => SetSpeeds r l
  | other => other
  end.

(** The milliseconds spent in [delay] by the steps [t]. *)
Fixpoint blocked_ms (t : list Step) : Z :=
  match t with
  | [] => 0
  | Delay ms :: rest => ms + blocked_ms rest
  | _ :: rest => blocked_ms rest
  end.

(** The motor commands among the steps [t], in order. *)
Fixpoint motor_commands (t : list Step) : list (Z * Z) :=
  match t with
  | [] => []
  | SetSpeeds l r :: rest => (l, r) :: motor_commands rest
  | _ :: rest => motor_commands rest
  end.

(** The events the function of each state can assign. *)
Definition may_emit (s : States) : list Events :=
  match s with
  | Start => [OnButtonPress]
  | Idle => [On5SecondsPassed]
  | Search => [OnEdge; OnFind; OnLeft; OnRight]
  | Chase => [OnEdge]
  | BackUp => [OnSafe]
  | TurnLeft | TurnRight => [OnEdge; OnFind]
  end.

(** The (state, event) pairs a cycle can end with. *)
Definition ends_cycle (s : States) (e : Events) : bool :=
  match s, e with
  | Start, (None | OnButtonPress) => true
  | Idle, (OnButtonPress | On5SecondsPassed) => true
  | Search, (On5SecondsPassed | OnSafe | OnEdge | OnFind | OnLeft | OnRight) =>
      true
  | Chase, (OnFind | OnEdge) => true
  | BackUp, OnSafe => true
  | TurnLeft, (OnLeft | OnEdge | OnFind) => true
  | TurnRight, (OnRight | OnEdge | OnFind) => true
  | _, _ => false
  end.

(** ** Snapshots for the scenarios

    Reflectance 500 is the dark surface (at or above [QTRTHRESHOLD]), 100 the
    white border.  Echo times are in microseconds; the scenarios are run with
    57 microseconds per centimetre. *)

Definition dark : nat -> Z := fun _ => 500.

Definition border_at_channel_0 : nat -> Z :=
  fun i => match i with O => 100 | _ => 500 end.

(** Nothing pressed, no echo, no border; the clock reads [t]. *)
Definition quiet_at (t : Z) : Snapshot := mkSnapshot false 0 0 0 dark t t.

(** The button is pressed. *)
Definition press_at (t : Z) : Snapshot := mkSnapshot true 0 0 0 dark t t.

(** An echo from 15 cm ahead. *)
Definition target_at (t : Z) : Snapshot := mkSnapshot false 855 0 0 dark t t.

(** An echo from 12 cm on the left, and one from 12 cm on the right. *)
Definition flank_at (t : Z) : Snapshot := mkSnapshot false 0 684 684 dark t t.

(** Channel 0 over the border, and an echo from 10 cm ahead. *)
Definition border_at (t : Z) : Snapshot :=
  mkSnapshot false 570 0 0 border_at_channel_0 t t.

(** ** The monad's equations *)

Lemma exec_bind {A B : Type} (m : M A) (f : A -> M B) (z : Zumo) :
  exec (bind m f) z = exec (f (value m z)) (exec m z).
Proof.
  unfold exec, value, bind.
  destruct (m z) as [[a z1] t1]; cbn.
  destruct (f a z1) as [[b z2] t2]; reflexivity.
Qed.

Lemma steps_bind {A B : Type} (m : M A) (f : A -> M B) (z : Zumo) :
  steps (bind m f) z = steps m z ++ steps (f (value m z)) (exec m z).
Proof.
  unfold steps, exec, value, bind.
  destruct (m z) as [[a z1] t1]; cbn.
  destruct (f a z1) as [[b z2] t2]; reflexivity.
Qed.

Lemma emitted_app (t u : list Step) : emitted (t ++ u) = emitted t ++ emitted u.
Proof.
  induction t as [|s t IH]; [reflexivity|].
  destruct s; cbn; now rewrite IH.
Qed.

Lemma In_emitted (e : Events) (t : list Step) :
  In e (emitted t) <-> In (Emit e) t.
Proof.
  induction t as [|s t IH]; [tauto|].
  destruct s; cbn; rewrite IH; intuition congruence.
Qed.

(** ** The transition function *)

Lemma updateState_eq (z : Zumo) :
  updateState z
  = (tt, set_zumoState (table_next (zumoState z) (zumoEvent z)) z, []).
Proof. destruct z as [s e p pl pr sv a b it ot]; destruct s, e; reflexivity. Qed.

Lemma set_zumoState_same (z : Zumo) : set_zumoState (zumoState z) z = z.
Proof. now destruct z. Qed.

Lemma table_next_listed (s : States) (e : Events) (s' : States) :
  In (s, e, s') transition_table -> table_next s e = s'.
Proof.
  cbn. intros H.
  repeat (destruct H as [H | H]; [now inversion H |]).
  contradiction.
Qed.

Lemma table_next_absent (s : States) (e : Events) :
  (forall s', ~ In (s, e, s') transition_table) -> table_next s e = s.
Proof.
  intros H; destruct s, e; try reflexivity;
    exfalso; eapply H; cbn;
    repeat (first [left; reflexivity | right]).
Qed.

(** C1.  [updateState] is the transition table of the specification: on a
    listed (state, event) pair it moves to the listed state and touches
    nothing else; on a pair that is not listed it changes nothing; the event
    [None] changes nothing; it performs no outward step; and the state
    variable is [Start] both by its static initialiser and after
    [initialize]. *)
Theorem updateState_is_transition_table :
  (forall s e s' z,
      In (s, e, s') transition_table ->
      zumoState z = s -> zumoEvent z = e ->
      exec updateState z = set_zumoState s' z)
  /\ (forall z,
         (forall s', ~ In (zumoState z, zumoEvent z, s') transition_table) ->
         exec updateState z = z)
  /\ (forall z, zumoEvent z = None -> exec updateState z = z)
  /\ (forall z, steps updateState z = [])
  /\ zumoState power_on = Start
  /\ (forall millis1 millis2 z,
         zumoState (exec (initialize millis1 millis2) z) = Start).
Proof.
  unfold exec, steps. repeat split.
  - intros s e s' z Hin Hs He. rewrite updateState_eq; cbn.
    subst s e. now rewrite (table_next_listed _ _ _ Hin).
  - intros z H. rewrite updateState_eq; cbn.
    rewrite (table_next_absent _ _ H). apply set_zumoState_same.
  - intros z H. rewrite updateState_eq; cbn. rewrite H.
    destruct z as [s e p pl pr sv a b it ot]; now destruct s.
  - intros z. now rewrite updateState_eq.
Qed.

(** ** Running the state functions symbolically *)

Ltac sketch_unfold :=
  cbv beta iota zeta delta
    [exec steps value loop doState updateEvent start idle search chase
     backUp backUp_less backUp_greater backUp_else turnLeft turnRight
     updateIdle buttonUpdate sonarUpdate sonarUpdateLeft sonarUpdateRight
     QTRUpdate qtrrc_read millis assign_zumoEvent motors_setSpeeds delay
     button_getSingleDebouncedPress sonar_ping_median sonarLeft_ping_median
     sonarRight_ping_median bind ret get modify tell fst snd app
     set_zumoState set_zumoEvent set_pingRead set_pingReadLeft
     set_pingReadRight set_sensorValues set_startIdleTimer set_stopIdleTimer
     set_idleTimer set_otteTalsTimer
     zumoState zumoEvent pingRead pingReadLeft pingReadRight sensorValues
     startIdleTimer stopIdleTimer idleTimer otteTalsTimer
     edgeIndex frontRange leftRange rightRange negb andb].

(** Case analysis on a condition, innermost test first. *)
Ltac split_test c :=
  lazymatch c with
  | context [if ?d then _ else _] => split_test d
  | _ => destruct c eqn:?
  end.

Ltac sketch_cases :=
  sketch_unfold;
  repeat (match goal with
          | |- context [if ?c then _ else _] => split_test c
          end; sketch_unfold).

Lemma doState_zumoState (env : Snapshot) (z : Zumo) :
  zumoState (exec (doState env) z) = zumoState z.
Proof.
  destruct z as [s e p pl pr sv a b it ot]; destruct s;
    sketch_cases; reflexivity.
Qed.

Lemma doState_zumoEvent (env : Snapshot) (z : Zumo) :
  zumoEvent (exec (doState env) z)
  = last_emitted (steps (doState env) z) (zumoEvent z).
Proof.
  destruct z as [s e p pl pr sv a b it ot]; destruct s;
    sketch_cases; reflexivity.
Qed.

Ltac Zbool :=
  rewrite ?Z.gtb_ltb, ?Z.geb_leb in *;
  repeat match goal with
         | H : (_ <? _) = true |- _ => apply Z.ltb_lt in H
         | H : (_ <? _) = false |- _ => apply Z.ltb_ge in H
         | H : (_ <=? _) = true |- _ => apply Z.leb_le in H
         | H : (_ <=? _) = false |- _ => apply Z.leb_gt in H
         end.

(** Decide membership of a step in an explicit list of steps. *)
Ltac in_steps H :=
  cbn [In] in H;
  repeat (destruct H as [H | H]; [try discriminate H |]);
  try contradiction.

Lemma exec_updateState (z : Zumo) :
  exec updateState z = set_zumoState (table_next (zumoState z) (zumoEvent z)) z.
Proof. unfold exec. now rewrite updateState_eq. Qed.

Lemma exec_loop (env : Snapshot) (z : Zumo) :
  exec (loop env) z = exec (doState env) (exec updateState z).
Proof. unfold loop. now rewrite !exec_bind. Qed.

Lemma steps_loop (env : Snapshot) (z : Zumo) :
  steps (loop env) z = steps (doState env) (exec updateState z).
Proof.
  unfold loop. rewrite !steps_bind.
  change (exec updateEvent z) with z.
  change (steps updateEvent z) with (@nil Step).
  unfold steps at 1. now rewrite updateState_eq.
Qed.

Lemma loop_zumoState (env : Snapshot) (z : Zumo) :
  zumoState (exec (loop env) z) = table_next (zumoState z) (zumoEvent z).
Proof.
  rewrite exec_loop, doState_zumoState, exec_updateState. now destruct z.
Qed.

Lemma loop_zumoEvent (env : Snapshot) (z : Zumo) :
  zumoEvent (exec (loop env) z)
  = last_emitted (steps (loop env) z) (zumoEvent z).
Proof.
  rewrite exec_loop, steps_loop, doState_zumoEvent, exec_updateState.
  now destruct z.
Qed.

(** C10.  Applying [updateState] twice is applying it once: with the event
    left as it is, the second application finds no transition to take.
    Hence, in the loop, a cycle whose state function assigns no event is
    followed by a cycle whose [updateState] leaves the state where it was. *)
Theorem updateState_idempotent :
  (forall z, exec updateState (exec updateState z) = exec updateState z)
  /\ (forall s e, table_next (table_next s e) e = table_next s e)
  /\ (forall env env' z,
         emitted (steps (loop env) z) = [] ->
         zumoState (exec (loop env') (exec (loop env) z))
         = zumoState (exec (loop env) z)).
Proof.
  assert (T : forall s e, table_next (table_next s e) e = table_next s e)
    by (intros s e; destruct s, e; reflexivity).
  repeat split.
  - intros z. rewrite !exec_updateState.
    destruct z as [s e p pl pr sv a b it ot]; cbn. now rewrite T.
  - exact T.
  - intros env env' z H.
    rewrite (loop_zumoState env'), loop_zumoEvent, loop_zumoState.
    unfold last_emitted; rewrite H; cbn. apply T.
Qed.

(** ** The state functions, step by step *)

Lemma search_steps (env : Snapshot) (z : Zumo) :
  steps (search env) z
  = QTRRead ::
    (if edgeIndex env >? -1 then [Emit OnEdge]
     else
       [SetSpeeds 100 200; Ping; PingLeft; PingRight] ++
       (if target_seen (frontRange env)
        then [SetSpeeds 0 0; Delay 50; Emit OnFind]
        else if target_seen (leftRange env) then [Emit OnLeft]
        else if target_seen (rightRange env) then [Emit OnRight]
        else [])).
Proof.
  destruct z as [s e p pl pr sv a b it ot]; unfold target_seen;
    sketch_cases; reflexivity.
Qed.

Lemma target_seen_iff (range : Z) :
  target_seen range = true <-> 0 < range < SONAR_THRESHOLD.
Proof. unfold target_seen. rewrite andb_true_iff, Z.gtb_ltb, !Z.ltb_lt. lia. Qed.

Lemma edgeIndex_absent (env : Snapshot) :
  (edgeIndex env >? -1) = false <-> edgeIndex env <= -1.
Proof. rewrite Z.gtb_ltb, Z.ltb_ge. lia. Qed.

Lemma edgeIndex_present (env : Snapshot) :
  (edgeIndex env >? -1) = true <-> edgeIndex env > -1.
Proof. rewrite Z.gtb_ltb, Z.ltb_lt. lia. Qed.

(** C2.  The priority of [search]: an edge index yields [OnEdge] and nothing
    else; without one, a front range in (0, SONAR_THRESHOLD) yields [OnFind]
    and nothing else; without either, a left range in that interval yields
    [OnLeft], whatever the right range; without any of the three, a right
    range in the interval yields [OnRight].  Whatever the state, a state
    function that assigns [OnLeft] or [OnRight] is [search]. *)
Theorem search_priority (env : Snapshot) (z : Zumo) :
  let seen range := 0 < range < SONAR_THRESHOLD in
  (edgeIndex env > -1 -> emitted (steps (search env) z) = [OnEdge])
  /\ (edgeIndex env <= -1 -> seen (frontRange env) ->
      emitted (steps (search env) z) = [OnFind])
  /\ (edgeIndex env <= -1 -> ~ seen (frontRange env) ->
      seen (leftRange env) ->
      emitted (steps (search env) z) = [OnLeft])
  /\ (edgeIndex env <= -1 -> ~ seen (frontRange env) ->
      ~ seen (leftRange env) -> seen (rightRange env) ->
      emitted (steps (search env) z) = [OnRight])
  /\ (forall e, In (Emit e) (steps (doState env) z) ->
                e = OnLeft \/ e = OnRight -> zumoState z = Search).
Proof.
  cbv zeta. rewrite search_steps.
  repeat split.
  - intros H. apply edgeIndex_present in H. now rewrite H.
  - intros H F. apply edgeIndex_absent in H. apply target_seen_iff in F.
    now rewrite H, F.
  - intros H F L. apply edgeIndex_absent in H.
    rewrite <- target_seen_iff in F, L. apply not_true_is_false in F.
    now rewrite H, F, L.
  - intros H F L R. apply edgeIndex_absent in H.
    rewrite <- target_seen_iff in F, L, R.
    apply not_true_is_false in F, L. now rewrite H, F, L, R.
  - intros e H He.
    destruct z as [s e0 p pl pr sv a b it ot]; destruct s;
      try reflexivity; exfalso; revert H; sketch_cases; intros H;
      in_steps H; destruct He; congruence.
Qed.

(** C5.  Whatever the state, the state function assigns [OnFind] only when
    the front range it has just read lies strictly between 0 and
    [SONAR_THRESHOLD], and [OnLeft] / [OnRight] only when the left / right
    range does.  In particular an echo time of zero (no echo) on a sonar
    never yields that sonar's event. *)
Theorem detection_needs_positive_range (env : Snapshot) (z : Zumo) :
  (In (Emit OnFind) (steps (doState env) z) ->
   0 < frontRange env < SONAR_THRESHOLD)
  /\ (In (Emit OnLeft) (steps (doState env) z) ->
      0 < leftRange env < SONAR_THRESHOLD)
  /\ (In (Emit OnRight) (steps (doState env) z) ->
      0 < rightRange env < SONAR_THRESHOLD)
  /\ (ping_median env = 0 -> ~ In (Emit OnFind) (steps (doState env) z))
  /\ (ping_median_left env = 0 -> ~ In (Emit OnLeft) (steps (doState env) z))
  /\ (ping_median_right env = 0 ->
      ~ In (Emit OnRight) (steps (doState env) z)).
Proof.
  assert (F : In (Emit OnFind) (steps (doState env) z) ->
              0 < frontRange env < SONAR_THRESHOLD).
  { destruct z as [s e p pl pr sv a b it ot]; destruct s;
      sketch_cases; intros H; in_steps H; Zbool; lia. }
  assert (L : In (Emit OnLeft) (steps (doState env) z) ->
              0 < leftRange env < SONAR_THRESHOLD).
  { destruct z as [s e p pl pr sv a b it ot]; destruct s;
      sketch_cases; intros H; in_steps H; Zbool; lia. }
  assert (R : In (Emit OnRight) (steps (doState env) z) ->
              0 < rightRange env < SONAR_THRESHOLD).
  { destruct z as [s e p pl pr sv a b it ot]; destruct s;
      sketch_cases; intros H; in_steps H; Zbool; lia. }
  repeat split; try tauto.
  - intros E H. apply F in H. unfold frontRange in H. rewrite E in H.
    cbn in H. lia.
  - intros E H. apply L in H. unfold leftRange in H. rewrite E in H.
    cbn in H. lia.
  - intros E H. apply R in H. unfold rightRange in H. rewrite E in H.
    cbn in H. lia.
Qed.

(** C8, as the code has it.  With an edge index present, [search] reads the
    reflectance array, assigns [OnEdge] and returns: these are its only two
    steps.  No sonar is pinged, and no motor command is issued, so the
    motors keep the speeds they had. *)
Theorem search_edge_returns_at_once (env : Snapshot) (z : Zumo) :
  edgeIndex env > -1 ->
  steps (search env) z = [QTRRead; Emit OnEdge]
  /\ zumoEvent (exec (search env) z) = OnEdge.
Proof.
  intros H. apply edgeIndex_present in H. split.
  - rewrite search_steps. now rewrite H.
  - revert H. destruct z as [s e p pl pr sv a b it ot].
    sketch_cases; intros; congruence.
Qed.

(** C6.  In state [BackUp] the state function runs to its end whatever the
    reflectance readings are, its last step is the assignment of [OnSafe],
    it leaves [zumoEvent = OnSafe] and [zumoState = BackUp], and the next
    [updateState] moves to [Search]. *)
Theorem backUp_ends_with_OnSafe (env : Snapshot) (z : Zumo) :
  zumoState z = BackUp ->
  (exists t, steps (doState env) z = t ++ [Emit OnSafe])
  /\ zumoEvent (exec (doState env) z) = OnSafe
  /\ zumoState (exec (doState env) z) = BackUp
  /\ zumoState (exec updateState (exec (doState env) z)) = Search.
Proof.
  destruct z as [s e p pl pr sv a b it ot]; cbn [zumoState]; intros ->.
  assert (E : zumoEvent (exec (doState env)
                (mkZumo BackUp e p pl pr sv a b it ot)) = OnSafe)
    by (sketch_cases; reflexivity).
  repeat split.
  - sketch_cases;
      match goal with
      | |- exists t, ?l = _ => exists (removelast l); reflexivity
      end.
  - exact E.
  - apply doState_zumoState.
  - rewrite exec_updateState, E, doState_zumoState. reflexivity.
Qed.

(** The steps of [backUp], by comparison outcome: the body of the first
    [if] when it holds, then the body of the second [if] or of its [else],
    then the assignment. *)
Lemma backUp_steps (z : Zumo) :
  let first := nth 0 (sensorValues z) 0 in
  let last := nth (NUM_SENSORS - 1) (sensorValues z) 0 in
  steps backUp z
  = (if first <? last then steps backUp_less z else [])
    ++ (if first >? last then steps backUp_greater z else steps backUp_else z)
    ++ [Emit OnSafe].
Proof.
  destruct z as [s e p pl pr sv a b it ot]. sketch_cases; reflexivity.
Qed.

(** Which bodies run, by the outcome of the comparison. *)
Lemma backUp_bodies_by_comparison (z : Zumo) :
  let first := nth 0 (sensorValues z) 0 in
  let last := nth (NUM_SENSORS - 1) (sensorValues z) 0 in
  (first < last ->
   steps backUp z = steps backUp_less z ++ steps backUp_else z ++ [Emit OnSafe])
  /\ (first > last ->
      steps backUp z = steps backUp_greater z ++ [Emit OnSafe])
  /\ (first = last ->
      steps backUp z = steps backUp_else z ++ [Emit OnSafe]).
Proof.
  cbv zeta. rewrite backUp_steps. cbv zeta.
  repeat split; intros H.
  - assert (G : ~ nth 0 (sensorValues z) 0
                  > nth (NUM_SENSORS - 1) (sensorValues z) 0) by lia.
    apply Z.ltb_lt in H. rewrite Z.gtb_ltb.
    rewrite H. destruct (Z.ltb_spec (nth (NUM_SENSORS - 1) (sensorValues z) 0)
                                    (nth 0 (sensorValues z) 0)); [lia|].
    reflexivity.
  - destruct (Z.ltb_spec (nth 0 (sensorValues z) 0)
                         (nth (NUM_SENSORS - 1) (sensorValues z) 0)); [lia|].
    rewrite Z.gtb_ltb.
    destruct (Z.ltb_spec (nth (NUM_SENSORS - 1) (sensorValues z) 0)
                         (nth 0 (sensorValues z) 0)); [|lia].
    reflexivity.
  - rewrite H, Z.gtb_ltb, Z.ltb_irrefl. reflexivity.
Qed.

(** ** Whole runs: the event variable *)

Lemma last_cons_default {A : Type} (a : A) (l : list A) (d : A) :
  last (a :: l) d = last l a.
Proof.
  revert a d; induction l as [|b l IH]; intros a d; [reflexivity|].
  change (last (a :: b :: l) d) with (last (b :: l) d).
  now rewrite !IH.
Qed.

Lemma last_app_default {A : Type} (l l' : list A) (d : A) :
  last (l ++ l') d = last l' (last l d).
Proof.
  revert d; induction l as [|a l IH]; intro d; [reflexivity|].
  cbn [app]. now rewrite !last_cons_default, IH.
Qed.

Lemma last_emitted_app (t u : list Step) (e : Events) :
  last_emitted (t ++ u) e = last_emitted u (last_emitted t e).
Proof. unfold last_emitted. now rewrite emitted_app, last_app_default. Qed.

Lemma last_default_or_In {A : Type} (l : list A) (d : A) :
  last l d = d \/ In (last l d) l.
Proof.
  revert d; induction l as [|a l IH]; intro d; [now left|].
  right. rewrite last_cons_default.
  destruct (IH a) as [H | H]; [left; now rewrite H | right; exact H].
Qed.

Lemma loops_zumoEvent (envs : list Snapshot) (z : Zumo) :
  zumoEvent (exec (loops envs) z)
  = last_emitted (steps (loops envs) z) (zumoEvent z).
Proof.
  revert z; induction envs as [|env envs IH]; intro z; [reflexivity|].
  cbn [loops]. rewrite exec_bind, steps_bind, last_emitted_app, IH.
  now rewrite loop_zumoEvent.
Qed.

Lemma steps_sketch (millis1 millis2 : Z) (envs : list Snapshot) :
  steps (sketch millis1 millis2 envs) power_on
  = Emit None :: steps (loops envs) (exec (setup millis1 millis2) power_on).
Proof. unfold sketch. now rewrite steps_bind. Qed.

Lemma after_eq (millis1 millis2 : Z) (envs : list Snapshot) :
  after millis1 millis2 envs
  = exec (loops envs) (exec (setup millis1 millis2) power_on).
Proof. unfold after, sketch. now rewrite exec_bind. Qed.

Lemma after_zumoEvent (millis1 millis2 : Z) (envs : list Snapshot) :
  zumoEvent (after millis1 millis2 envs)
  = last_emitted (steps (sketch millis1 millis2 envs) power_on) None.
Proof.
  rewrite after_eq, steps_sketch, loops_zumoEvent.
  change (Emit None :: ?t) with ([Emit None] ++ t).
  rewrite last_emitted_app. reflexivity.
Qed.


(** ** Whole runs: [OnLost] *)

Lemma doState_never_OnLost (env : Snapshot) (z : Zumo) :
  ~ In (Emit OnLost) (steps (doState env) z).
Proof.
  destruct z as [s e p pl pr sv a b it ot]; destruct s;
    sketch_cases; intros H; in_steps H.
Qed.

Lemma loops_never_OnLost (envs : list Snapshot) (z : Zumo) :
  ~ In (Emit OnLost) (steps (loops envs) z).
Proof.
  revert z; induction envs as [|env envs IH]; intro z; [intros []|].
  cbn [loops]. rewrite steps_bind, steps_loop. intros H.
  apply in_app_or in H. destruct H as [H | H].
  - exact (doState_never_OnLost _ _ H).
  - exact (IH _ H).
Qed.

(** C9.  From power-on, whatever the sensors answer, no step of the sketch
    assigns [OnLost] ([updateEvent] has no step at all), so [zumoEvent] is
    never [OnLost]; and an [updateState] applied in state [Chase] either
    stays in [Chase] or, the event being [OnEdge], moves to [BackUp]: it
    never takes the table's row from [Chase] to [Search]. *)
Theorem OnLost_never_assigned (millis1 millis2 : Z) (envs : list Snapshot) :
  let z := after millis1 millis2 envs in
  ~ In (Emit OnLost) (steps (sketch millis1 millis2 envs) power_on)
  /\ steps updateEvent z = []
  /\ zumoEvent z <> OnLost
  /\ (zumoState z = Chase ->
      (zumoEvent z <> OnEdge /\ exec updateState z = z)
      \/ (zumoEvent z = OnEdge
          /\ exec updateState z = set_zumoState BackUp z)).
Proof.
  cbv zeta.
  assert (N : ~ In (Emit OnLost) (steps (sketch millis1 millis2 envs) power_on)).
  { rewrite steps_sketch. intros [H | H]; [discriminate H|].
    exact (loops_never_OnLost _ _ H). }
  assert (E : zumoEvent (after millis1 millis2 envs) <> OnLost).
  { rewrite after_zumoEvent. unfold last_emitted.
    destruct (last_default_or_In
                (emitted (steps (sketch millis1 millis2 envs) power_on)) None)
      as [H | H].
    - rewrite H. discriminate.
    - intros H'. rewrite H' in H. apply In_emitted in H. exact (N H). }
  repeat split; try assumption.
  intros C. rewrite exec_updateState.
  destruct (after millis1 millis2 envs) as [s e p pl pr sv a b it ot].
  cbn [zumoState zumoEvent] in *. subst s.
  destruct e; try (left; split; [discriminate | reflexivity]).
  - right; split; reflexivity.
  - contradiction.
Qed.

(** ** Whole runs: the idle timer *)

Lemma to_unsigned_long_range (z : Z) : 0 <= to_unsigned_long z < 2 ^ 32.
Proof. apply Z.mod_pos_bound. lia. Qed.

Lemma to_unsigned_long_long_small (z : Z) :
  0 <= z < 2 ^ 64 -> to_unsigned_long_long z = z.
Proof. apply Z.mod_small. Qed.
















(** *** The wait, from power-on to the firing *)
















(** ** Beyond the claims: the state functions one by one *)

Lemma QTRUpdate_for_first (fuel i : nat) (vals : list Z) :
  (QTRUpdate_for fuel i vals = -1
   /\ forall j, (i <= j < i + fuel)%nat -> QTRTHRESHOLD <= nth j vals 0)
  \/ (exists k,
         QTRUpdate_for fuel i vals = Z.of_nat k
         /\ (i <= k < i + fuel)%nat
         /\ nth k vals 0 < QTRTHRESHOLD
         /\ forall j, (i <= j < k)%nat -> QTRTHRESHOLD <= nth j vals 0).
Proof.
  revert i; induction fuel as [|fuel IH]; intro i.
  - left. split; [reflexivity | intros j H; lia].
  - cbn [QTRUpdate_for].
    destruct (Z.ltb_spec (nth i vals 0) QTRTHRESHOLD) as [B | B].
    + right. exists i.
      split; [reflexivity | split; [lia | split; [exact B |]]].
      intros j H; lia.
    + destruct (IH (S i)) as [[E A] | (k & E & R & L & A)].
      * left. split; [exact E|]. intros j H.
        destruct (Nat.eq_dec j i) as [-> | N]; [exact B | apply A; lia].
      * right. exists k.
        split; [exact E | split; [lia | split; [exact L |]]].
        intros j H.
        destruct (Nat.eq_dec j i) as [-> | N]; [exact B | apply A; lia].
Qed.

Lemma QTRUpdate_value (env : Snapshot) (z : Zumo) :
  value (QTRUpdate env) z = edgeIndex env.
Proof. now destruct z. Qed.

Lemma QTRUpdate_sensorValues (env : Snapshot) (z : Zumo) :
  sensorValues (exec (QTRUpdate env) z)
  = map (fun i => to_unsigned_int (qtrrc_values env i)) (seq 0 NUM_SENSORS).
Proof. now destruct z. Qed.

(** X1.  [QTRUpdate] stores the four readings of the snapshot and returns
    the index of the first one below [QTRTHRESHOLD], every channel before it
    being at or above the threshold; it returns [-1] exactly when all four
    are at or above it.  The result does not depend on the globals. *)
Theorem QTRUpdate_first_channel_below (env : Snapshot) (z : Zumo) :
  let r := value (QTRUpdate env) z in
  let vals := sensorValues (exec (QTRUpdate env) z) in
  vals = map (fun i => to_unsigned_int (qtrrc_values env i)) (seq 0 NUM_SENSORS)
  /\ r = edgeIndex env
  /\ ((r = -1
       /\ forall j, (j < NUM_SENSORS)%nat -> QTRTHRESHOLD <= nth j vals 0)
      \/ (exists k,
             r = Z.of_nat k
             /\ (k < NUM_SENSORS)%nat
             /\ nth k vals 0 < QTRTHRESHOLD
             /\ forall j, (j < k)%nat -> QTRTHRESHOLD <= nth j vals 0)).
Proof.
  cbv zeta. rewrite QTRUpdate_value, QTRUpdate_sensorValues.
  split; [reflexivity | split; [reflexivity |]].
  unfold edgeIndex.
  destruct (QTRUpdate_for_first NUM_SENSORS 0
              (map (fun i => to_unsigned_int (qtrrc_values env i))
                   (seq 0 NUM_SENSORS)))
    as [[E A] | (k & E & R & L & A)].
  - left. split; [exact E|]. intros j H. apply A. lia.
  - right. exists k.
    split; [exact E | split; [lia | split; [exact L |]]].
    intros j H. apply A. lia.
Qed.

(** X2.  In each of the four moving states an edge index makes the state
    function assign [OnEdge] and nothing else, without pinging a sonar and
    without stopping the motors, and the next [updateState] moves to
    [BackUp].  [chase], [turnLeft] and [turnRight] have by then already
    issued their motor command for the cycle; [search] has issued none. *)
Theorem edge_preempts_in_moving_states (env : Snapshot) (z : Zumo) :
  edgeIndex env > -1 ->
  moving (zumoState z) = true ->
  steps (doState env) z
  = match zumoState z with
    | Chase => [SetSpeeds 400 400; QTRRead; Emit OnEdge]
    | TurnLeft => [SetSpeeds (-300) 300; QTRRead; Emit OnEdge]
    | TurnRight => [SetSpeeds 300 (-300); QTRRead; Emit OnEdge]
    | _ => [QTRRead; Emit OnEdge]
    end
  /\ zumoEvent (exec (doState env) z) = OnEdge
  /\ zumoState (exec updateState (exec (doState env) z)) = BackUp.
Proof.
  intros E Mv. apply edgeIndex_present in E.
  assert (S : steps (doState env) z
              = match zumoState z with
                | Chase => [SetSpeeds 400 400; QTRRead; Emit OnEdge]
                | TurnLeft => [SetSpeeds (-300) 300; QTRRead; Emit OnEdge]
                | TurnRight => [SetSpeeds 300 (-300); QTRRead; Emit OnEdge]
                | _ => [QTRRead; Emit OnEdge]
                end).
  { revert E. destruct z as [s e p pl pr sv a b it ot]; destruct s;
      try discriminate Mv; sketch_cases; intros H;
      first [reflexivity | discriminate H]. }
  assert (V : zumoEvent (exec (doState env) z) = OnEdge).
  { rewrite doState_zumoEvent, S. now destruct (zumoState z). }
  repeat split; try assumption.
  rewrite exec_updateState, V, doState_zumoState.
  destruct z as [s e p pl pr sv a b it ot]; destruct s;
    try discriminate Mv; reflexivity.
Qed.

(** X3.  Which sensors a state function touches: the button is polled in
    [Start] only; the reflectance array is read in the four moving states
    only; the front sonar is pinged in [Search], [TurnLeft] and [TurnRight]
    only, the side sonars in [Search] only.  [Idle] and [BackUp] touch no
    sensor, and [Start] and [Idle] neither command the motors nor delay. *)
Theorem sensors_touched_by_state (env : Snapshot) (z : Zumo) :
  (In ButtonPoll (steps (doState env) z) -> zumoState z = Start)
  /\ (In QTRRead (steps (doState env) z) -> moving (zumoState z) = true)
  /\ (In Ping (steps (doState env) z) ->
      zumoState z = Search \/ zumoState z = TurnLeft
      \/ zumoState z = TurnRight)
  /\ (In PingLeft (steps (doState env) z) -> zumoState z = Search)
  /\ (In PingRight (steps (doState env) z) -> zumoState z = Search)
  /\ (forall l r, In (SetSpeeds l r) (steps (doState env) z) ->
                  zumoState z <> Start /\ zumoState z <> Idle)
  /\ (forall ms, In (Delay ms) (steps (doState env) z) ->
                 zumoState z <> Start /\ zumoState z <> Idle).
Proof.
  destruct z as [s e p pl pr sv a b it ot].
  repeat match goal with |- _ /\ _ => split end; intros;
    match goal with H : In _ _ |- _ => revert H end;
    destruct s; sketch_cases; intros H; in_steps H;
    first [reflexivity | solve [auto] | (split; discriminate)].
Qed.

(** X4.  [turnRight] is [turnLeft] with the wheels exchanged: the same
    result in the globals, and the same steps but for the two arguments of
    each motor command. *)
Theorem turnRight_mirrors_turnLeft (env : Snapshot) (z : Zumo) :
  exec (turnRight env) z = exec (turnLeft env) z
  /\ steps (turnRight env) z = map mirror (steps (turnLeft env) z).
Proof.
  destruct z as [s e p pl pr sv a b it ot].
  split; sketch_cases; reflexivity.
Qed.

(** X5.  [backUp] spends 500 ms in [delay], or 1000 ms when the first
    reflectance reading is below the last; its last motor command, which
    stays in force when it returns, is a pivot: to the right when the first
    reading is above the last, to the left otherwise.  It touches no global
    but [zumoEvent]. *)
Theorem backUp_duration_and_last_command (z : Zumo) :
  let first := nth 0 (sensorValues z) 0 in
  let last_ := nth (NUM_SENSORS - 1) (sensorValues z) 0 in
  blocked_ms (steps backUp z) = (if first <? last_ then 1000 else 500)
  /\ last (motor_commands (steps backUp z)) (0, 0)
     = (if first >? last_ then (300, -300) else (-300, 300))
  /\ exec backUp z = set_zumoEvent OnSafe z.
Proof.
  destruct z as [s e p pl pr sv a b it ot].
  repeat split; sketch_cases; reflexivity.
Qed.

(** ** Beyond the claims: cycles *)

Lemma doState_emits (env : Snapshot) (z : Zumo) :
  (emitted (steps (doState env) z) = [] /\ zumoState z <> BackUp)
  \/ (exists e, emitted (steps (doState env) z) = [e]
                /\ In e (may_emit (zumoState z))).
Proof.
  destruct z as [s e p pl pr sv a b it ot]; destruct s; sketch_cases;
    first [left; split; [reflexivity | discriminate]
          | right; eexists; split; [reflexivity | cbn; tauto]].
Qed.

(** X6.  A state function assigns at most one event per call, and only an
    event of its own state: [OnButtonPress] in [Start], [On5SecondsPassed]
    in [Idle], [OnEdge], [OnFind], [OnLeft] or [OnRight] in [Search],
    [OnEdge] in [Chase], [OnSafe] in [BackUp], [OnEdge] or [OnFind] in the
    turn states.  No state function assigns [None]. *)
Theorem one_event_per_cycle (env : Snapshot) (z : Zumo) :
  (length (emitted (steps (doState env) z)) <= 1)%nat
  /\ (forall e, In e (emitted (steps (doState env) z)) ->
                In e (may_emit (zumoState z)))
  /\ ~ In None (emitted (steps (doState env) z)).
Proof.
  destruct (doState_emits env z) as [[E _] | (e' & E & I)]; rewrite E.
  - repeat split; cbn; try lia; tauto.
  - repeat split; cbn; try lia.
    + intros e [<- | []]. exact I.
    + intros [-> | []].
      destruct (zumoState z); cbn in I; intuition discriminate.
Qed.

Lemma loop_ends_cycle (env : Snapshot) (z : Zumo) :
  ends_cycle (zumoState z) (zumoEvent z) = true ->
  ends_cycle (zumoState (exec (loop env) z)) (zumoEvent (exec (loop env) z))
  = true.
Proof.
  intros H.
  rewrite loop_zumoEvent, loop_zumoState, steps_loop.
  unfold last_emitted.
  pose proof (doState_emits env (exec updateState z)) as D.
  assert (T : zumoState (exec updateState z)
              = table_next (zumoState z) (zumoEvent z))
    by (rewrite exec_updateState; now destruct z).
  rewrite T in D.
  destruct D as [[E N] | (e' & E & I)]; rewrite E; cbn [last].
  - destruct (zumoState z), (zumoEvent z);
      try discriminate H; try reflexivity; now elim N.
  - destruct (zumoState z), (zumoEvent z); try discriminate H;
      cbn in I; repeat (destruct I as [<- | I]; [reflexivity |]);
      contradiction.
Qed.

Lemma loops_ends_cycle (envs : list Snapshot) (z : Zumo) :
  ends_cycle (zumoState z) (zumoEvent z) = true ->
  ends_cycle (zumoState (exec (loops envs) z))
             (zumoEvent (exec (loops envs) z)) = true.
Proof.
  revert z; induction envs as [|env envs IH]; intros z H; [exact H|].
  cbn [loops]. rewrite exec_bind. apply IH. now apply loop_ends_cycle.
Qed.

Lemma after_ends_cycle (millis1 millis2 : Z) (envs : list Snapshot) :
  ends_cycle (zumoState (after millis1 millis2 envs))
             (zumoEvent (after millis1 millis2 envs)) = true.
Proof. rewrite after_eq. now apply loops_ends_cycle. Qed.

(** X7.  From power-on, whatever the inputs, a cycle ends with the state and
    the event in one of the pairs of [ends_cycle]: for instance [Start] only
    with [None] or [OnButtonPress], [Chase] only with [OnFind] or [OnEdge],
    [BackUp] only with [OnSafe]. *)
Theorem cycle_end_pairs (millis1 millis2 : Z) (envs : list Snapshot) :
  let z := after millis1 millis2 envs in
  ends_cycle (zumoState z) (zumoEvent z) = true
  /\ (zumoState z = Start -> zumoEvent z = None \/ zumoEvent z = OnButtonPress)
  /\ (zumoState z = Chase -> zumoEvent z = OnFind \/ zumoEvent z = OnEdge)
  /\ (zumoState z = BackUp -> zumoEvent z = OnSafe).
Proof.
  cbv zeta. pose proof (after_ends_cycle millis1 millis2 envs) as H.
  repeat split; try exact H; intros S; rewrite S in H;
    destruct (zumoEvent (after millis1 millis2 envs));
    try discriminate H; auto.
Qed.

(** X8.  [BackUp] lasts one cycle: from power-on, a cycle that ends in
    [BackUp] is followed by a cycle that ends in [Search], whatever the
    sensors say. *)
Theorem BackUp_lasts_one_cycle
        (millis1 millis2 : Z) (envs : list Snapshot) (env : Snapshot) :
  zumoState (after millis1 millis2 envs) = BackUp ->
  zumoState (exec (loop env) (after millis1 millis2 envs)) = Search.
Proof.
  intros S. pose proof (after_ends_cycle millis1 millis2 envs) as H.
  rewrite loop_zumoState, S. rewrite S in H.
  destruct (zumoEvent (after millis1 millis2 envs));
    try discriminate H; reflexivity.
Qed.

(** X9.  What the sensors say in a cycle does not change the state that
    cycle ends in: that state is the table's answer to the state and the
    event the previous cycle ended with, and a state function never writes
    [zumoState].  An event takes effect one cycle after it is assigned. *)
Theorem state_lags_one_cycle (env env' : Snapshot) (z : Zumo) :
  zumoState (exec (loop env) z) = table_next (zumoState z) (zumoEvent z)
  /\ zumoState (exec (loop env) z) = zumoState (exec (loop env') z)
  /\ zumoState (exec (doState env) z) = zumoState z
  /\ zumoState (exec (loop env') (exec (loop env) z))
     = table_next (table_next (zumoState z) (zumoEvent z))
                  (last_emitted (steps (loop env) z) (zumoEvent z)).
Proof.
  repeat split.
  - apply loop_zumoState.
  - now rewrite !loop_zumoState.
  - apply doState_zumoState.
  - now rewrite (loop_zumoState env'), loop_zumoState, loop_zumoEvent.
Qed.

(** ** Beyond the claims: whole runs *)

Lemma table_next_stays_out (s : States) (e : Events) :
  (s <> Start -> table_next s e <> Start)
  /\ (s <> Start -> s <> Idle ->
      table_next s e <> Start /\ table_next s e <> Idle)
  /\ (s = Start -> table_next s e <> Start -> e = OnButtonPress)
  /\ (s = Idle -> table_next s e <> Idle -> e = On5SecondsPassed)
  /\ (s = Start -> table_next s e = Start \/ table_next s e = Idle).
Proof.
  repeat split; destruct s, e; cbn; intros; congruence || auto.
Qed.

Lemma doState_still_in_Start_Idle (env : Snapshot) (z : Zumo) (l r : Z) :
  In (SetSpeeds l r) (steps (doState env) z) ->
  zumoState z <> Start /\ zumoState z <> Idle.
Proof.
  destruct z as [s e p pl pr sv a b it ot]; destruct s;
    sketch_cases; intros H; in_steps H; split; discriminate.
Qed.

(** The steps [t] command the motors only after having assigned
    [OnButtonPress] and [On5SecondsPassed]. *)
Definition waits_before_moving (t : list Step) : Prop :=
  forall pre l r post,
    t = pre ++ SetSpeeds l r :: post ->
    In (Emit OnButtonPress) pre /\ In (Emit On5SecondsPassed) pre.

(** What holds of a state [z] and the steps [t] that led to it. *)
Definition waited (z : Zumo) (t : list Step) : Prop :=
  waits_before_moving t
  /\ In (Emit (zumoEvent z)) t
  /\ (zumoState z = Start \/ zumoState z = Idle ->
      forall l r, ~ In (SetSpeeds l r) t)
  /\ (zumoState z <> Start -> In (Emit OnButtonPress) t)
  /\ (zumoState z <> Start -> zumoState z <> Idle ->
      In (Emit On5SecondsPassed) t).

Lemma loop_waited (env : Snapshot) (z : Zumo) (t : list Step) :
  waited z t -> waited (exec (loop env) z) (t ++ steps (loop env) z).
Proof.
  intros (Q & E & N & B & F).
  pose proof (table_next_stays_out (zumoState z) (zumoEvent z))
    as (T1 & T2 & T3 & T4 & T5).
  pose proof (loop_zumoState env z) as S'.
  assert (B' : zumoState (exec (loop env) z) <> Start ->
               In (Emit OnButtonPress) t).
  { rewrite S'. intros H.
    destruct (States_eqb (zumoState z) Start) eqn:C.
    - assert (zumoState z = Start) as Z0 by (now destruct (zumoState z)).
      rewrite <- (T3 Z0 H). exact E.
    - apply B. intros Z0. rewrite Z0 in C. discriminate C. }
  assert (F' : zumoState (exec (loop env) z) <> Start ->
               zumoState (exec (loop env) z) <> Idle ->
               In (Emit On5SecondsPassed) t).
  { rewrite S'. intros H1 H2.
    destruct (zumoState z) eqn:Z0.
    - destruct (T5 eq_refl); contradiction.
    - rewrite <- (T4 eq_refl H2). exact E.
    - apply F; discriminate.
    - apply F; discriminate.
    - apply F; discriminate.
    - apply F; discriminate.
    - apply F; discriminate. }
  assert (M : forall l r, In (SetSpeeds l r) (steps (loop env) z) ->
                          In (Emit OnButtonPress) t
                          /\ In (Emit On5SecondsPassed) t).
  { intros l r H. rewrite steps_loop in H.
    apply doState_still_in_Start_Idle in H.
    rewrite <- (doState_zumoState env), <- exec_loop in H.
    destruct H as [H1 H2]. split; [apply B' | apply F']; assumption. }
  refine (conj _ (conj _ (conj _ (conj _ _)))).
  - intros pre l r post H.
    apply app_eq_app in H. destruct H as (u & [[H1 H2] | [H1 H2]]).
    + destruct u as [|x u].
      * rewrite app_nil_r in H1. subst pre. cbn in H2.
        apply (M l r). rewrite <- H2. now left.
      * cbn in H2. injection H2 as <- H2.
        apply (Q pre l r u H1).
    + subst pre.
      destruct (M l r) as [M1 M2].
      { rewrite H2. apply in_or_app. right. now left. }
      split; apply in_or_app; now left.
  - rewrite loop_zumoEvent. unfold last_emitted.
    destruct (last_default_or_In (emitted (steps (loop env) z)) (zumoEvent z))
      as [H | H].
    + rewrite H. apply in_or_app. now left.
    + apply In_emitted in H. apply in_or_app. now right.
  - intros H l r I. apply in_app_or in I. destruct I as [I | I].
    + assert (zumoState z = Start \/ zumoState z = Idle) as Z0.
      { rewrite S' in H.
        destruct (zumoState z) eqn:Z0; auto;
          destruct (T2 ltac:(discriminate) ltac:(discriminate));
          destruct H; contradiction. }
      exact (N Z0 l r I).
    + rewrite steps_loop in I. apply doState_still_in_Start_Idle in I.
      rewrite <- (doState_zumoState env), <- exec_loop in I.
      destruct I, H; contradiction.
  - intros H. apply in_or_app. left. now apply B'.
  - intros H1 H2. apply in_or_app. left. now apply F'.
Qed.

Lemma loops_waited (envs : list Snapshot) (z : Zumo) (t : list Step) :
  waited z t -> waited (exec (loops envs) z) (t ++ steps (loops envs) z).
Proof.
  revert z t; induction envs as [|env envs IH]; intros z t H.
  - cbn. now rewrite app_nil_r.
  - cbn [loops]. rewrite exec_bind, steps_bind, app_assoc.
    apply IH. now apply loop_waited.
Qed.

Lemma setup_waited (millis1 millis2 : Z) :
  waited (exec (setup millis1 millis2) power_on) [Emit None].
Proof.
  refine (conj _ (conj _ (conj _ (conj _ _)))).
  - intros pre l r post H. destruct pre as [|x pre]; [discriminate H|].
    injection H as _ H. destruct pre; discriminate H.
  - now left.
  - intros _ l r [H | []]. discriminate H.
  - intros H. now elim H.
  - intros H. now elim H.
Qed.

(** X10.  From power-on, whatever the inputs, the sketch commands the motors
    only after it has assigned [OnButtonPress] and then
    [On5SecondsPassed]: before any motor command in the steps of a run,
    both assignments have taken place. *)
Theorem no_motion_before_the_wait
        (millis1 millis2 : Z) (envs : list Snapshot)
        (pre post : list Step) (l r : Z) :
  steps (sketch millis1 millis2 envs) power_on = pre ++ SetSpeeds l r :: post ->
  In (Emit OnButtonPress) pre /\ In (Emit On5SecondsPassed) pre.
Proof.
  rewrite steps_sketch.
  change (Emit None :: ?t) with ([Emit None] ++ t).
  destruct (loops_waited envs _ _ (setup_waited millis1 millis2)) as [Q _].
  apply Q.
Qed.

Lemma loops_stay_out (envs : list Snapshot) (z : Zumo) :
  (zumoState z <> Start -> zumoState (exec (loops envs) z) <> Start)
  /\ (zumoState z <> Start -> zumoState z <> Idle ->
      zumoState (exec (loops envs) z) <> Start
      /\ zumoState (exec (loops envs) z) <> Idle).
Proof.
  revert z; induction envs as [|env envs IH]; intro z; [tauto|].
  cbn [loops]. rewrite exec_bind.
  destruct (IH (exec (loop env) z)) as [I1 I2].
  rewrite loop_zumoState in I1, I2.
  pose proof (table_next_stays_out (zumoState z) (zumoEvent z))
    as (T1 & T2 & _).
  split.
  - intros H. apply I1, T1, H.
  - intros H1 H2. destruct (T2 H1 H2). now apply I2.
Qed.

(** X11.  [Start] and [Idle] are left for good: once the state is not
    [Start] it is never [Start] again, and once it is neither [Start] nor
    [Idle] it is never [Idle] again, whatever the inputs.  So the idle timer
    is armed in one stay in [Idle] only. *)
Theorem Start_and_Idle_are_left_for_good (envs : list Snapshot) (z : Zumo) :
  zumoState z <> Start ->
  zumoState (exec (loops envs) z) <> Start
  /\ (zumoState z <> Idle -> zumoState (exec (loops envs) z) <> Idle).
Proof.
  intros H. destruct (loops_stay_out envs z) as [L1 L2].
  split; [now apply L1 | intros H'; now apply L2].
Qed.

(** ** Beyond the claims: ranges *)

Lemma to_int_range (z : Z) : - 2 ^ 15 <= to_int z < 2 ^ 15.
Proof.
  unfold to_int, wrap_signed.
  pose proof (Z.mod_pos_bound (z + 2 ^ (16 - 1)) (2 ^ 16) ltac:(lia)).
  change (2 ^ (16 - 1)) with (2 ^ 15) in *. lia.
Qed.

Lemma to_int_small (z : Z) : - 2 ^ 15 <= z < 2 ^ 15 -> to_int z = z.
Proof.
  intros H. unfold to_int, wrap_signed.
  change (2 ^ (16 - 1)) with (2 ^ 15).
  rewrite Z.mod_small by lia. lia.
Qed.

Lemma to_unsigned_int_range (z : Z) : 0 <= to_unsigned_int z < 2 ^ 16.
Proof. apply Z.mod_pos_bound. lia. Qed.

Lemma timer_reading_range (z : Z) :
  0 <= to_unsigned_long_long (to_unsigned_long z) < 2 ^ 32.
Proof.
  pose proof (to_unsigned_long_range z).
  rewrite to_unsigned_long_long_small; lia.
Qed.

Lemma readings_range (env : Snapshot) :
  Forall (fun v => 0 <= v < 2 ^ 16)
         (map (fun i => to_unsigned_int (qtrrc_values env i))
              (seq 0 NUM_SENSORS)).
Proof.
  apply Forall_forall. intros v H. apply in_map_iff in H.
  destruct H as (i & <- & _). apply to_unsigned_int_range.
Qed.

(** Every global holds a value of its C type, and the array has its
    [NUM_SENSORS] cells. *)
Definition in_range (z : Zumo) : Prop :=
  length (sensorValues z) = NUM_SENSORS
  /\ Forall (fun v => 0 <= v < 2 ^ 16) (sensorValues z)
  /\ - 2 ^ 15 <= pingRead z < 2 ^ 15
  /\ - 2 ^ 15 <= pingReadLeft z < 2 ^ 15
  /\ - 2 ^ 15 <= pingReadRight z < 2 ^ 15
  /\ 0 <= idleTimer z < 2 ^ 32
  /\ 0 <= otteTalsTimer z < 2 ^ 32.

Ltac in_range_field :=
  first [ assumption
        | reflexivity
        | apply to_int_range
        | apply readings_range
        | apply timer_reading_range ].

Lemma doState_in_range (env : Snapshot) (z : Zumo) :
  in_range z -> in_range (exec (doState env) z).
Proof.
  destruct z as [s e p pl pr sv a b it ot]. unfold in_range.
  cbn [sensorValues pingRead pingReadLeft pingReadRight idleTimer
       otteTalsTimer].
  intros (H1 & H2 & H3 & H4 & H5 & H6 & H7).
  destruct s; sketch_cases;
    refine (conj _ (conj _ (conj _ (conj _ (conj _ (conj _ _))))));
    in_range_field.
Qed.

Lemma loops_in_range (envs : list Snapshot) (z : Zumo) :
  in_range z -> in_range (exec (loops envs) z).
Proof.
  revert z; induction envs as [|env envs IH]; intros z H; [exact H|].
  cbn [loops]. rewrite exec_bind, exec_loop. apply IH, doState_in_range.
  rewrite exec_updateState. now destruct z.
Qed.

(** X12.  From power-on, whatever the drivers return, the globals stay
    within their types: [sensorValues] keeps its four cells, each an
    [unsigned int], so that [sensorValues[0]] and
    [sensorValues[NUM_SENSORS-1]] in [backUp] are inside the array; the three
    ranges are [int]s; the two timers hold 32-bit clock readings, so that
    [idleTimer + 5000] cannot wrap around in 64 bits. *)
Theorem globals_stay_in_range (millis1 millis2 : Z) (envs : list Snapshot) :
  let z := after millis1 millis2 envs in
  length (sensorValues z) = NUM_SENSORS
  /\ Forall (fun v => 0 <= v < 2 ^ 16) (sensorValues z)
  /\ - 2 ^ 15 <= pingRead z < 2 ^ 15
  /\ - 2 ^ 15 <= pingReadLeft z < 2 ^ 15
  /\ - 2 ^ 15 <= pingReadRight z < 2 ^ 15
  /\ 0 <= idleTimer z < 2 ^ 32
  /\ 0 <= otteTalsTimer z < 2 ^ 32
  /\ to_unsigned_long_long (idleTimer z + 5000) = idleTimer z + 5000.
Proof.
  cbv zeta.
  assert (R : in_range (after millis1 millis2 envs)).
  { rewrite after_eq. apply loops_in_range.
    refine (conj _ (conj _ (conj _ (conj _ (conj _ (conj _ _))))));
      try (cbn; lia); try reflexivity.
    - repeat constructor; lia.
    - apply timer_reading_range.
    - apply timer_reading_range. }
  destruct R as (H1 & H2 & H3 & H4 & H5 & H6 & H7).
  refine (conj H1 (conj H2 (conj H3 (conj H4 (conj H5 (conj H6 (conj H7 _))))))).
  apply to_unsigned_long_long_small. lia.
Qed.

(** X13.  With a positive [US_ROUNDTRIP_CM] and an echo time whose quotient
    fits an [int], [sonarUpdate] returns the echo time divided by
    [US_ROUNDTRIP_CM], rounded down, and leaves the same value in [pingRead];
    the range test of the state functions then holds exactly for echo times
    from [US_ROUNDTRIP_CM] up to, not including,
    [SONAR_THRESHOLD * US_ROUNDTRIP_CM]. *)
Theorem sonar_threshold_in_echo_time (env : Snapshot) (z : Zumo) :
  0 < US_ROUNDTRIP_CM ->
  0 <= ping_median env < 2 ^ 15 * US_ROUNDTRIP_CM ->
  value (sonarUpdate env) z = ping_median env / US_ROUNDTRIP_CM
  /\ pingRead (exec (sonarUpdate env) z) = value (sonarUpdate env) z
  /\ (target_seen (value (sonarUpdate env) z) = true <->
      US_ROUNDTRIP_CM <= ping_median env < SONAR_THRESHOLD * US_ROUNDTRIP_CM).
Proof.
  intros U E.
  assert (V : value (sonarUpdate env) z = ping_median env / US_ROUNDTRIP_CM).
  { destruct z as [s e p pl pr sv a b it ot]. sketch_unfold.
    rewrite Z.quot_div_nonneg by lia.
    apply to_int_small.
    pose proof (Z.div_pos (ping_median env) US_ROUNDTRIP_CM ltac:(lia) U).
    pose proof (Z.div_lt_upper_bound (ping_median env) US_ROUNDTRIP_CM
                                     (2 ^ 15) U ltac:(lia)).
    lia. }
  split; [exact V | split; [now destruct z |]].
  rewrite V, target_seen_iff. unfold SONAR_THRESHOLD.
  pose proof (Z.div_mod (ping_median env) US_ROUNDTRIP_CM ltac:(lia)) as D.
  pose proof (Z.mod_pos_bound (ping_median env) US_ROUNDTRIP_CM U) as B.
  split; intros H; nia.
Qed.

(** X14.  [Chase] holds until an edge: from a state in [Chase] whose event
    is [OnFind], as [Chase] is entered, cycles in which no channel is below
    the threshold leave the state in [Chase], assign no event, ping no
    sonar, and command full speed ahead each time, whatever the echo times
    are. *)
Theorem Chase_holds_until_an_edge (envs : list Snapshot) (z : Zumo) :
  zumoState z = Chase -> zumoEvent z = OnFind ->
  Forall (fun env => edgeIndex env <= -1) envs ->
  zumoState (exec (loops envs) z) = Chase
  /\ zumoEvent (exec (loops envs) z) = OnFind
  /\ steps (loops envs) z
     = concat (map (fun _ => [SetSpeeds 400 400; QTRRead]) envs).
Proof.
  revert z; induction envs as [|env envs IH]; intros z S E F.
  - repeat split; assumption.
  - inversion F as [|x xs N F' [X1 X2]]; subst x xs.
    apply edgeIndex_absent in N.
    cbn [loops map concat]. rewrite exec_bind, steps_bind.
    assert (L : steps (loop env) z = [SetSpeeds 400 400; QTRRead]
                /\ zumoState (exec (loop env) z) = Chase
                /\ zumoEvent (exec (loop env) z) = OnFind).
    { rewrite loop_zumoEvent, loop_zumoState, steps_loop, exec_updateState.
      rewrite S, E. revert N.
      destruct z as [s e p pl pr sv a b it ot]. cbn in S, E. subst s e.
      change (table_next Chase OnFind) with Chase.
      unfold last_emitted. sketch_cases; intros N;
        first [discriminate N | repeat split; reflexivity]. }
    destruct L as (L1 & L2 & L3).
    destruct (IH _ L2 L3 F') as (I1 & I2 & I3).
    rewrite L1, I3. repeat split; assumption.
Qed.

(** ** Beyond the claims: [otteTal] *)

(** X15.  [otteTal] returns [-1] when a channel is below the threshold,
    having done nothing but read the array, and [0] otherwise.  In that
    case, with [elapsed] the clock reading minus [otteTalsTimer]: for
    [elapsed] strictly between 0 and 1000, or strictly between 4000 and
    6000, it commands (400, 125); strictly between 1000 and 4000, (125,
    400); and for every other reading, among them the instants 0, 1000 and
    4000 exactly, it commands nothing and restarts the timer from a new
    clock reading. *)
Theorem otteTal_windows (env : Snapshot) (millis1 millis2 : Z) (z : Zumo) :
  let now := to_unsigned_long millis1 in
  let timer := otteTalsTimer z in
  let run := otteTal env millis1 millis2 in
  0 <= timer < 2 ^ 32 ->
  (edgeIndex env > -1 ->
   value run z = -1 /\ steps run z = [QTRRead]
   /\ otteTalsTimer (exec run z) = timer)
  /\ (edgeIndex env <= -1 ->
      value run z = 0
      /\ (timer < now < timer + 1000 \/ timer + 4000 < now < timer + 6000 ->
          steps run z = [QTRRead; SetSpeeds 400 125]
          /\ otteTalsTimer (exec run z) = timer)
      /\ (timer + 1000 < now < timer + 4000 ->
          steps run z = [QTRRead; SetSpeeds 125 400]
          /\ otteTalsTimer (exec run z) = timer)
      /\ (now <= timer \/ now = timer + 1000 \/ now = timer + 4000
          \/ timer + 6000 <= now ->
          steps run z = [QTRRead]
          /\ otteTalsTimer (exec run z) = to_unsigned_long millis2)).
Proof.
  cbv zeta. destruct z as [s e p pl pr sv a b it ot].
  cbn [otteTalsTimer]. intros R.
  pose proof (to_unsigned_long_range millis1) as N1.
  pose proof (to_unsigned_long_range millis2) as N2.
  assert (A0 : to_unsigned_long_long (to_unsigned_long millis1)
               = to_unsigned_long millis1)
    by (apply to_unsigned_long_long_small; lia).
  assert (A1 : to_unsigned_long_long (ot + 1000) = ot + 1000)
    by (apply to_unsigned_long_long_small; lia).
  assert (A2 : to_unsigned_long_long (ot + 4000) = ot + 4000)
    by (apply to_unsigned_long_long_small; lia).
  assert (A3 : to_unsigned_long_long (ot + 6000) = ot + 6000)
    by (apply to_unsigned_long_long_small; lia).
  assert (A4 : to_unsigned_long_long (to_unsigned_long millis2)
               = to_unsigned_long millis2)
    by (apply to_unsigned_long_long_small; lia).
  unfold otteTal. split; intros E.
  - apply edgeIndex_present in E. revert E. sketch_unfold.
    intros ->. repeat split; reflexivity.
  - apply edgeIndex_absent in E. revert E. sketch_unfold.
    intros ->. sketch_unfold. rewrite A0, A1, A2, A3, A4.
    sketch_cases; Zbool;
      (split; [reflexivity |]);
      refine (conj _ (conj _ _)); intros H;
      first [exfalso; lia | split; reflexivity].
Qed.

End Sketch.

(** ** The scenarios of the specification, at 57 microseconds per centimetre *)

(** Scenario 1: in [Start], a button press leads to [Idle]. *)
Example scenario_button_press :
  emitted (steps (sketch 57 0 0 [press_at 10]) power_on) = [None; OnButtonPress]
  /\ zumoState (after 57 0 0 [press_at 10; quiet_at 20]) = Idle.
Proof. split; reflexivity. Qed.

(** Scenario 2: [idle] armed at 20 ms assigns nothing 4999 ms later, and
    assigns [On5SecondsPassed] 5001 ms later, which leads to [Search]. *)
Example scenario_idle_timer :
  emitted (steps (loop 57 (quiet_at 5019))
                 (after 57 0 0 [press_at 10; quiet_at 20])) = []
  /\ emitted (steps (loop 57 (quiet_at 5021))
                    (after 57 0 0 [press_at 10; quiet_at 20]))
     = [On5SecondsPassed]
  /\ zumoState (after 57 0 0 [press_at 10; quiet_at 20; quiet_at 5021;
                              quiet_at 5022]) = Search.
Proof. repeat split; reflexivity. Qed.

(** Scenarios 3 to 6: from [Search], the border (with a target 10 cm ahead)
    leads to [BackUp] and then back to [Search]; a target 15 cm ahead leads
    to [Chase]; a target 12 cm on the left leads to [TurnLeft]. *)
Example scenario_search :
  let searching := [press_at 10; quiet_at 20; quiet_at 5020; quiet_at 5030] in
  zumoState (after 57 0 0 searching) = Search
  /\ zumoState (after 57 0 0 (searching ++ [border_at 5040; quiet_at 5050]))
     = BackUp
  /\ zumoState (after 57 0 0 (searching ++ [border_at 5040; quiet_at 5050;
                                            quiet_at 6050])) = Search
  /\ zumoState (after 57 0 0 (searching ++ [target_at 5040; quiet_at 5050]))
     = Chase
  /\ zumoState (after 57 0 0 (searching ++ [flank_at 5040; quiet_at 5050]))
     = TurnLeft.
Proof. repeat split; reflexivity. Qed.

(** The run of scenario 2 meets the conditions under which the wait is
    proved to end: [idle] was first run at 20 ms, nothing has fired, and the
    next cycle reads 5021 ms. *)
Example scenario_idle_timer_due :
  first_idle_millis 57 ([press_at 10; quiet_at 20] ++ [quiet_at 5021])
                    (exec (setup 0 0) power_on) = Some 20
  /\ times_emitted On5SecondsPassed
       (steps (sketch 57 0 0 [press_at 10; quiet_at 20]) power_on) = 0%nat
  /\ 20 + 5000 <= to_unsigned_long (millis_updateIdle (quiet_at 5021)).
Proof. repeat split; try reflexivity. discriminate. Qed.

(** ** The claims at concrete inputs *)



(** C8 as stated fails.  The robot is searching, its motors at (100, 200);
    the border comes under channel 0.  [search] assigns [OnEdge] and returns
    with no motor command: the last command stands. *)
Lemma search_edge_leaves_motors_running :
  let searching := [press_at 10; quiet_at 20; quiet_at 5020; quiet_at 5030] in
  edgeIndex (border_at 5040) = 0
  /\ steps (sketch 57 0 0 (searching ++ [border_at 5040])) power_on
     = [Emit None; ButtonPoll; Emit OnButtonPress; Emit On5SecondsPassed;
        QTRRead; SetSpeeds 100 200; Ping; PingLeft; PingRight;
        QTRRead; Emit OnEdge]
  /\ ~ In (SetSpeeds 0 0)
          (steps (loop 57 (border_at 5040)) (after 57 0 0 searching))
  /\ ~ (forall env z,
           edgeIndex env > -1 ->
           In (Emit OnEdge) (steps (search 57 env) z)
           /\ In (SetSpeeds 0 0) (steps (search 57 env) z)
           /\ ~ In Ping (steps (search 57 env) z)).
Proof.
  cbv zeta. repeat split.
  - intros H. vm_compute in H. intuition discriminate.
  - intros H.
    destruct (H (border_at 5040) power_on eq_refl) as (_ & S & _).
    vm_compute in S. intuition discriminate.
Qed.

(** [search_edge_returns_at_once] at the border snapshot. *)
Lemma search_edge_returns_at_once_witness :
  edgeIndex (border_at 5040) > -1
  /\ (steps (search 57 (border_at 5040)) power_on = [QTRRead; Emit OnEdge]
      /\ zumoEvent (exec (search 57 (border_at 5040)) power_on) = OnEdge).
Proof.
  split; [reflexivity |].
  apply (search_edge_returns_at_once 57 (border_at 5040) power_on).
  reflexivity.
Defined.

(** [backUp_ends_with_OnSafe] at a state in [BackUp] with all reflectance
    readings equal. *)
Lemma backUp_ends_with_OnSafe_witness :
  let z := set_zumoState BackUp power_on in
  zumoState z = BackUp
  /\ ((exists t, steps (doState 57 (quiet_at 0)) z = t ++ [Emit OnSafe])
      /\ zumoEvent (exec (doState 57 (quiet_at 0)) z) = OnSafe
      /\ zumoState (exec (doState 57 (quiet_at 0)) z) = BackUp
      /\ zumoState (exec updateState (exec (doState 57 (quiet_at 0)) z))
         = Search).
Proof.
  split; [reflexivity |].
  apply (backUp_ends_with_OnSafe 57 (quiet_at 0) (set_zumoState BackUp power_on)).
  reflexivity.
Defined.

(** C7, on the code.  The robot, searching, meets the border under channel 0
    alone, so the first reflectance reading (100) is below the last (500).
    In the [BackUp] cycle that follows, two of the three bodies run one after
    the other: the one for less-than, and then the [else] body, which belongs
    to the second [if] alone. *)
Theorem backUp_less_runs_two_bodies :
  let z := exec updateState
             (after 57 0 0 [press_at 10; quiet_at 20; quiet_at 5020;
                            quiet_at 5030; border_at 5040]) in
  zumoState z = BackUp
  /\ sensorValues z = [100; 500; 500; 500]
  /\ steps (doState 57 (quiet_at 5050)) z
     = [SetSpeeds (-400) (-200); Delay 200; SetSpeeds (-300) 300; Delay 300;
        SetSpeeds (-400) (-400); Delay 200; SetSpeeds (-300) 300; Delay 300;
        Emit OnSafe]
  /\ steps backUp z
     = steps backUp_less z ++ steps backUp_else z ++ [Emit OnSafe].
Proof. repeat split; reflexivity. Qed.

(** ** Beyond the claims, at concrete inputs *)

(** [edge_preempts_in_moving_states] in [Chase], the border under
    channel 0. *)
Lemma edge_preempts_in_moving_states_witness :
  let z := set_zumoState Chase power_on in
  edgeIndex (border_at 0) > -1
  /\ moving (zumoState z) = true
  /\ (steps (doState 57 (border_at 0)) z
      = [SetSpeeds 400 400; QTRRead; Emit OnEdge]
      /\ zumoEvent (exec (doState 57 (border_at 0)) z) = OnEdge
      /\ zumoState (exec updateState (exec (doState 57 (border_at 0)) z))
         = BackUp).
Proof.
  split; [reflexivity | split; [reflexivity |]].
  apply (edge_preempts_in_moving_states 57 (border_at 0)
           (set_zumoState Chase power_on)); reflexivity.
Defined.

(** [BackUp_lasts_one_cycle] after a run that meets the border while
    searching. *)
Lemma BackUp_lasts_one_cycle_witness :
  let envs := [press_at 10; quiet_at 20; quiet_at 5020; quiet_at 5030;
               border_at 5040; quiet_at 5050] in
  zumoState (after 57 0 0 envs) = BackUp
  /\ zumoState (exec (loop 57 (quiet_at 6000)) (after 57 0 0 envs)) = Search.
Proof.
  split; [reflexivity |].
  apply (BackUp_lasts_one_cycle 57 0 0
           [press_at 10; quiet_at 20; quiet_at 5020; quiet_at 5030;
            border_at 5040; quiet_at 5050] (quiet_at 6000)).
  reflexivity.
Defined.

(** [no_motion_before_the_wait] at the first motor command of a run. *)
Lemma no_motion_before_the_wait_witness :
  let pre := [Emit None; ButtonPoll; Emit OnButtonPress;
              Emit On5SecondsPassed; QTRRead] in
  steps (sketch 57 0 0 [press_at 10; quiet_at 20; quiet_at 5020;
                        quiet_at 5030]) power_on
  = pre ++ SetSpeeds 100 200 :: [Ping; PingLeft; PingRight]
  /\ (In (Emit OnButtonPress) pre /\ In (Emit On5SecondsPassed) pre).
Proof.
  split; [reflexivity |].
  apply (no_motion_before_the_wait 57 0 0
           [press_at 10; quiet_at 20; quiet_at 5020; quiet_at 5030]
           [Emit None; ButtonPoll; Emit OnButtonPress;
            Emit On5SecondsPassed; QTRRead]
           [Ping; PingLeft; PingRight] 100 200).
  reflexivity.
Defined.

(** [Start_and_Idle_are_left_for_good] from [Search], over a button press
    and a quiet cycle. *)
Lemma Start_and_Idle_are_left_for_good_witness :
  let z := set_zumoState Search power_on in
  let envs := [press_at 0; quiet_at 6000] in
  zumoState z <> Start
  /\ (zumoState (exec (loops 57 envs) z) <> Start
      /\ (zumoState z <> Idle -> zumoState (exec (loops 57 envs) z) <> Idle)).
Proof.
  split; [discriminate |].
  apply (Start_and_Idle_are_left_for_good 57 [press_at 0; quiet_at 6000]
           (set_zumoState Search power_on)).
  discriminate.
Defined.

(** [sonar_threshold_in_echo_time] at 57 microseconds per centimetre and an
    echo of 855 microseconds. *)
Lemma sonar_threshold_in_echo_time_witness :
  0 < 57
  /\ 0 <= ping_median (target_at 0) < 2 ^ 15 * 57
  /\ (value (sonarUpdate 57 (target_at 0)) power_on
      = ping_median (target_at 0) / 57
      /\ pingRead (exec (sonarUpdate 57 (target_at 0)) power_on)
         = value (sonarUpdate 57 (target_at 0)) power_on
      /\ (target_seen (value (sonarUpdate 57 (target_at 0)) power_on) = true
          <-> 57 <= ping_median (target_at 0) < SONAR_THRESHOLD * 57)).
Proof.
  split; [lia | split; [cbn; lia |]].
  apply (sonar_threshold_in_echo_time 57 (target_at 0) power_on);
    [lia | cbn; lia].
Defined.

(** [Chase_holds_until_an_edge] over two cycles with the target gone. *)
Lemma Chase_holds_until_an_edge_witness :
  let z := set_zumoEvent OnFind (set_zumoState Chase power_on) in
  let envs := [quiet_at 0; quiet_at 10] in
  zumoState z = Chase /\ zumoEvent z = OnFind
  /\ Forall (fun env => edgeIndex env <= -1) envs
  /\ (zumoState (exec (loops 57 envs) z) = Chase
      /\ zumoEvent (exec (loops 57 envs) z) = OnFind
      /\ steps (loops 57 envs) z
         = concat (map (fun _ => [SetSpeeds 400 400; QTRRead]) envs)).
Proof.
  assert (F : Forall (fun env => edgeIndex env <= -1)
                     [quiet_at 0; quiet_at 10])
    by (repeat constructor; discriminate).
  split; [reflexivity | split; [reflexivity | split; [exact F |]]].
  apply (Chase_holds_until_an_edge 57 [quiet_at 0; quiet_at 10]
           (set_zumoEvent OnFind (set_zumoState Chase power_on)));
    [reflexivity | reflexivity | exact F].
Defined.

(** [otteTal_windows] with the timer at 0 and the clock at 1000. *)
Lemma otteTal_windows_witness :
  0 <= otteTalsTimer power_on < 2 ^ 32
  /\ (edgeIndex (quiet_at 0) <= -1
      /\ steps (otteTal (quiet_at 0) 1000 1001) power_on = [QTRRead]
      /\ otteTalsTimer (exec (otteTal (quiet_at 0) 1000 1001) power_on)
         = 1001).
Proof.
  split; [cbn; lia |].
  destruct (otteTal_windows (quiet_at 0) 1000 1001 power_on) as [_ W];
    [cbn; lia |].
  split; [discriminate |].
  destruct (W ltac:(discriminate)) as (_ & _ & _ & B).
  apply B. right. left. reflexivity.
Defined.

(** ** The first sketch

    The earlier state-machine sketch has five states and six events; its
    [updateState] reads [zumoEvent] and writes [zumoState]. *)

Module Earlier.

Inductive States : Set := Start | Idle | Search | Chase | BackUp.

Inductive Events : Set :=
  None | OnButtonPress | On5SecondsPassed | OnFind | OnEdge | OnSafe.

Record Machine : Set := mkMachine {
  zumoState : States;
  zumoEvent : Events
}.

Definition States_eqb (a b : States) : bool :=
  match a, b with
  | Start, Start | Idle, Idle | Search, Search | Chase, Chase
  | BackUp, BackUp => true
  | _, _ => false
  end.

(** [if(zumoState == s){ zumoState = s'; }] *)
Definition if_state (s s' : States) (m : Machine) : Machine :=
  if States_eqb (zumoState m) s then mkMachine s' (zumoEvent m) else m.

Definition updateState (m : Machine) : Machine :=
  match zumoEvent m with
  | None => m
  | OnButtonPress => if_state Start Idle m
  | On5SecondsPassed => if_state Idle Search m
  | OnFind => if_state Search Chase m
  | OnEdge => if_state Chase BackUp (if_state Search BackUp m)
  | OnSafe => if_state BackUp Search m
  end.

End Earlier.

(** A state and an event of the first sketch, in the later one. *)
Definition later_state (s : Earlier.States) : States :=
  match s with
  | Earlier.Start => Start
  | Earlier.Idle => Idle
  | Earlier.Search => Search
  | Earlier.Chase => Chase
  | Earlier.BackUp => BackUp
  end.

Definition later_event (e : Earlier.Events) : Events :=
  match e with
  | Earlier.None => None
  | Earlier.OnButtonPress => OnButtonPress
  | Earlier.On5SecondsPassed => On5SecondsPassed
  | Earlier.OnFind => OnFind
  | Earlier.OnEdge => OnEdge
  | Earlier.OnSafe => OnSafe
  end.

(** X16.  The later [updateState] extends the first one: on the five states
    and six events the first sketch has, both move to the same state, and
    the first one leaves the event as it is. *)
Theorem updateState_extends_the_first_sketch (m : Earlier.Machine) (z : Zumo) :
  zumoState z = later_state (Earlier.zumoState m) ->
  zumoEvent z = later_event (Earlier.zumoEvent m) ->
  zumoState (exec updateState z)
  = later_state (Earlier.zumoState (Earlier.updateState m))
  /\ Earlier.zumoEvent (Earlier.updateState m) = Earlier.zumoEvent m.
Proof.
  destruct z as [s e p pl pr sv a b it ot], m as [s0 e0].
  cbn [zumoState zumoEvent Earlier.zumoState Earlier.zumoEvent].
  intros -> ->. destruct s0, e0; split; reflexivity.
Qed.

(** [updateState_extends_the_first_sketch] on [Search] meeting [OnEdge]. *)
Lemma updateState_extends_the_first_sketch_witness :
  let m := Earlier.mkMachine Earlier.Search Earlier.OnEdge in
  let z := set_zumoEvent OnEdge (set_zumoState Search power_on) in
  zumoState z = later_state (Earlier.zumoState m)
  /\ zumoEvent z = later_event (Earlier.zumoEvent m)
  /\ (zumoState (exec updateState z)
      = later_state (Earlier.zumoState (Earlier.updateState m))
      /\ Earlier.zumoEvent (Earlier.updateState m) = Earlier.zumoEvent m).
Proof.
  split; [reflexivity | split; [reflexivity |]].
  apply (updateState_extends_the_first_sketch
           (Earlier.mkMachine Earlier.Search Earlier.OnEdge)
           (set_zumoEvent OnEdge (set_zumoState Search power_on)));
    reflexivity.
Defined.
